(** * happychartsv2: labeler, backtest pass, history ledger and driver

    A shallow embedding of [src/src/lib.rs] ([label_candles] and its
    threshold constants), [src/src/backtest.rs] ([run_backtest_and_improve],
    [query_model_and_compare]) and the loop of [src/src/main.rs].

    Prices are Rust [f64] values; they are modelled by Rocq's primitive
    binary64 floats, so that comparisons and products are those of the
    program.  The accuracy of a pass ([correct_count as f64 / total as f64])
    is modelled by the exact rational quotient in [Q]. *)

From Stdlib Require Import String.
From Stdlib Require Import List Bool Arith Lia ZArith QArith Floats.
From Stdlib Require Import Permutation.
Import ListNotations.
Open Scope nat_scope.
Set Warnings "-inexact-float,-register-all".

(* ------------------------------------------------------------------ *)
(** ** lib.rs: actions, candle arrays and the labeler *)

Module Labeler.

(** [pub enum Action { Long, Short, None }] *)
Inductive Action : Type :=
| Long
| Short
| None.

Definition Action_eqb (a b : Action) : bool :=
  match a, b with
  | Long, Long | Short, Short | None, None => true
  | _, _ => false
  end.

(** A [[f64; 6]] candle array, after [candles_to_array]:
    [[time, open, high, low, close, volume]]. *)
Record f64x6 : Type := mk6 {
  a0 : float; a1 : float; a2 : float; a3 : float; a4 : float; a5 : float
}.

(** Array indexing [a[i]]; the labeler only indexes with the constants
    [HIGH], [LOW] and [CLOSE] below, all in range. *)
Definition at6 (a : f64x6) (i : nat) : float :=
  match i with
  | 0 => a0 a | 1 => a1 a | 2 => a2 a | 3 => a3 a | 4 => a4 a | _ => a5 a
  end.

(** [pub const LONG_THRESHOLD: f64 = 1.05;] *)
Definition LONG_THRESHOLD : float := 1.05%float.
(** [pub const SHORT_THRESHOLD: f64 = 0.95;] *)
Definition SHORT_THRESHOLD : float := 0.95%float.

Definition HIGH : nat := 2.
Definition LOW : nat := 3.
Definition CLOSE : nat := 4.

(** [data.windows(2)]: every adjacent pair, in order. *)
Fixpoint windows2 {A : Type} (l : list A) : list (A * A) :=
  match l with
  | x :: ((y :: _) as t) => (x, y) :: windows2 t
  | _ => []
  end.

(** The closure mapped over the windows, with the thresholds as
    arguments so that the rule can also be run with other constants. *)
Definition label_pair (long_t short_t : float) (w : f64x6 * f64x6) : Action :=
  let current := fst w in
  let next := snd w in
  let c_close := at6 current CLOSE in
  let next_high := at6 next HIGH in
  let next_low := at6 next LOW in
  (* next_high >= c_close * LONG_THRESHOLD *)
  let long_cond := (c_close * long_t <=? next_high)%float in
  (* next_low <= c_close * SHORT_THRESHOLD *)
  let short_cond := (next_low <=? c_close * short_t)%float in
  match long_cond, short_cond with
  | true, true => Short
  | true, false => Long
  | false, true => Short
  | false, false => None
  end.

(** The labeling rule with given threshold multipliers. *)
Definition label_candles_with (long_t short_t : float) (data : list f64x6)
  : list Action :=
  map (label_pair long_t short_t) (windows2 data) ++ [None].

(** [pub fn label_candles(data: &[[f64; 6]]) -> Vec<Action>] *)
Definition label_candles (data : list f64x6) : list Action :=
  label_candles_with LONG_THRESHOLD SHORT_THRESHOLD data.

(** The thresholds of the spec's scenarios, plus and minus 0.3 percent. *)
Definition LONG_THRESHOLD_03 : float := 1.003%float.
Definition SHORT_THRESHOLD_03 : float := 0.997%float.

(** A candle whose unused fields (time, open, volume) are zero. *)
Definition candle (high low close : float) : f64x6 :=
  mk6 0%float 0%float high low close 0%float.

(** The spec's scenario 1, fields [high, low, close] at indexes 2, 3, 4. *)
Definition scenario1 : list f64x6 :=
  [ candle 3603.0 3599.99 3594.88;
    candle 3600.0 3565.45 3599.99;
    candle 3570.86 3558.89 3565.52 ].

End Labeler.

(* ------------------------------------------------------------------ *)
(** ** backtest.rs: model replies, the history ledger and one pass *)

Module Backtest.
Import Labeler.

(** Errors raised with [?] / [bail!] inside [run_backtest_and_improve]. *)
Inductive error : Type :=
| ModelTransport          (* analyze_data_gpt failed *)
| NotValidJson            (* "Response not valid JSON: ..." *)
| MissingAction           (* "Missing 'action' field in response" *)
| NotEnoughEthCandles     (* "Not enough ETH candles to perform backtesting" *)
| PromptFileUnreadable    (* "Failed to read base prompt file" *)
| HistoryFileUnreadable.  (* fs::read_to_string(&history_path)? *)

Inductive result (A : Type) : Type :=
| Ok (a : A)
| Err (e : error).
Arguments Ok {A} a.
Arguments Err {A} e.

(** [const CANDLE_HOURS: usize = 24;] *)
Definition CANDLE_HOURS : nat := 24.

(** *** Stripping code fences: [str::replace] *)

(** [s.replace(pat, rep)] for a non-empty [pat]: matches are found left to
    right and do not overlap.  [fuel] is the length of [s]; every step
    consumes at least one character. *)
Fixpoint replace_go (pat rep : string) (fuel : nat) (s : string) : string :=
  match fuel with
  | O => s
  | S fuel' =>
      match s with
      | EmptyString => EmptyString
      | String c s' =>
          if String.prefix pat s
          then String.append rep (replace_go pat rep fuel' (substring (String.length pat) (String.length s) s))
          else String c (replace_go pat rep fuel' s')
      end
  end.

Definition str_replace (s pat rep : string) : string :=
  replace_go pat rep (String.length s) s.

Definition fence_json : string := "```json"%string.
Definition fence : string := "```"%string.

(** The backquote character. *)
Definition bq : Ascii.ascii := Ascii.Ascii false false false false false true true false.

(** [response.replace(FENCE_JSON, EMPTY).replace(FENCE, EMPTY)], with
    FENCE_JSON three backquotes followed by json, FENCE three backquotes and
    EMPTY the empty string. *)
Definition clean_response (response : string) : string :=
  str_replace (str_replace response fence_json EmptyString) fence EmptyString.

(** *** serde_json values *)

Inductive json : Type :=
| JNull
| JBool (b : bool)
| JNumber (q : Q)
| JString (s : string)
| JArray (l : list json)
| JObject (fields : list (string * json)).

(** [val.get(key)]: only objects have fields. *)
Definition json_get (key : string) (v : json) : option json :=
  match v with
  | JObject fields =>
      match find (fun kv => String.eqb (fst kv) key) fields with
      | Some (_, x) => Some x
      | Datatypes.None => Datatypes.None
      end
  | _ => Datatypes.None
  end.

(** [a.as_str()] *)
Definition json_as_str (v : json) : option string :=
  match v with
  | JString s => Some s
  | _ => Datatypes.None
  end.

(** *** The per-window query *)

Section Query.

(** [serde_json::from_str::<Value>]: the JSON text parser, a library
    function, left as a parameter (any parser). *)
Variable parse_json : string -> option json.

(** [query_model_and_compare(prompt, label)]; [reply] is what
    [analyze_data_gpt(&prompt, Model::O1Mini)] returned for this prompt. *)
Definition query_model_and_compare (reply : result string) (label : Action)
  : result (Action * string * Action) :=
  match reply with
  | Err e => Err e
  | Ok response =>
      let clean := clean_response response in
      match parse_json clean with
      | Datatypes.None => Err NotValidJson
      | Some val =>
          match option_map json_as_str (json_get "action"%string val) with
          | Some (Some action_str) =>
              let rationale :=
                match option_map json_as_str (json_get "rationale"%string val) with
                | Some (Some r) => r
                | _ => EmptyString
                end in
              let pred :=
                if String.eqb action_str "long"%string then Long
                else if String.eqb action_str "short"%string then Short
                else if String.eqb action_str "none"%string then None
                else None in
              Ok (pred, rationale, label)
          | _ => Err MissingAction
          end
      end
  end.

End Query.

(** *** The history ledger [cache/prompt_history.json] *)

(** [struct PromptRecord { prompt: String, score: f64 }] *)
Record PromptRecord : Type := mkPromptRecord {
  prompt : string;
  score : Q
}.

(** The contents of the ledger file, as the code observes them through
    [Path::exists], [fs::read_to_string] and
    [serde_json::from_str::<Vec<PromptRecord>>]:
    - [Absent]: no file at the path;
    - [LedgerJson l]: UTF-8 text that deserializes to [l]; this is what
      [serde_json::to_string_pretty(&history)] writes;
    - [BadJson]: UTF-8 text that does not deserialize as a ledger;
    - [BadUtf8]: a file whose bytes are not valid UTF-8 (for instance the
      single byte 0xFF), on which [read_to_string] fails. *)
Inductive ledger_file : Type :=
| Absent
| LedgerJson (l : list PromptRecord)
| BadJson
| BadUtf8.

(** [if Path::new(&history_path).exists() {
       let data = fs::read_to_string(&history_path)?;
       serde_json::from_str(&data).unwrap_or_default()
     } else { Vec::new() }] *)
Definition load_history (f : ledger_file) : result (list PromptRecord) :=
  match f with
  | Absent => Ok []
  | LedgerJson l => Ok l
  | BadJson => Ok []
  | BadUtf8 => Err HistoryFileUnreadable
  end.

(** [if history.len() > 10 { let start = history.len() - 10;
       history = history[start..].to_vec(); }] *)
Definition keep_last_10 (history : list PromptRecord) : list PromptRecord :=
  if 10 <? length history
  then skipn (length history - 10) history
  else history.

(** The ledger update of a pass: load, [history.push(record)], keep the
    last 10, [fs::write(&history_path, json)] (the write overwrites the
    file). *)
Definition update_history (f : ledger_file) (r : PromptRecord)
  : result ledger_file :=
  match load_history f with
  | Err e => Err e
  | Ok history => Ok (LedgerJson (keep_last_10 (history ++ [r])))
  end.

(** The last [n] elements of a list, in order. *)
Definition lastn {A : Type} (n : nat) (l : list A) : list A :=
  skipn (length l - n) l.

(** The ledger file after the ledger updates of several passes, the
    records in the order the passes appended them. *)
Fixpoint ledger_after (f : ledger_file) (records : list PromptRecord)
  : result ledger_file :=
  match records with
  | [] => Ok f
  | r :: rest =>
      match update_history f r with
      | Err e => Err e
      | Ok f' => ledger_after f' rest
      end
  end.

(** *** One pass: [run_backtest_and_improve] *)

(** The two files the pass reads and writes: [prompt.txt] ([Datatypes.None]
    when it cannot be read) and the ledger. *)
Record fs : Type := mkFs {
  prompt_txt : option string;
  history_json : ledger_file
}.

(** [(CANDLE_HOURS..eth_candles.len()).filter_map(...)]: the end indexes of
    the windows for which a task is built. *)
Definition task_indices (eth btc sol : list f64x6) : list nat :=
  filter (fun i => negb ((length btc <? i) || (length sol <? i)))
    (seq CANDLE_HOURS (length eth - CANDLE_HOURS)).

(** A failure [(i, pred, label, rationale)]. *)
Definition failure : Type := (nat * Action * Action * string)%type.

Section Pass.

Variable parse_json : string -> option json.

(** [while let Some(res) = results.next().await { let (i, (pred,
    rationale, label)) = res?; ... }]: [order] is the completion order of
    the tasks (by window index) and [query i] the result of task [i]. *)
Fixpoint tally (query : nat -> result (Action * string * Action))
    (order : list nat) (correct_count total : nat) (failures : list failure)
  : result (nat * nat * list failure) :=
  match order with
  | [] => Ok (correct_count, total, failures)
  | i :: rest =>
      match query i with
      | Err e => Err e
      | Ok (pred, rationale, label) =>
          if Action_eqb pred label
          then tally query rest (S correct_count) (S total) failures
          else tally query rest correct_count (S total)
                 (failures ++ [(i, pred, label, rationale)])
      end
  end.

(** [let accuracy = if total > 0 { correct_count as f64 / total as f64 }
     else { 0.0 };] *)
Definition accuracy_of (correct_count total : nat) : Q :=
  if 0 <? total
  then inject_Z (Z.of_nat correct_count) / inject_Z (Z.of_nat total)
  else 0.

(** The task of window [i]: [query_model_and_compare(full_prompt,
    labels[i - 1])] with [labels = label_candles(&eth_candles)]. *)
Definition pass_query (eth : list f64x6) (reply : nat -> result string)
    (i : nat) : result (Action * string * Action) :=
  query_model_and_compare parse_json (reply i) (nth (i - 1) (label_candles eth) None).

(** [run_backtest_and_improve()], from the point where the three candle
    series have been loaded and converted with [candles_to_array].
    [reply i] is the model's reply to the prompt of window [i];
    [order] the order in which [buffer_unordered(20)] yields the tasks;
    [improve_reply] the reply of [analyze_data_gpt(&improvement_prompt,
    Model::O1Preview)].  Returns the result and the files afterwards. *)
Definition run_backtest_and_improve (st : fs) (eth btc sol : list f64x6)
    (reply : nat -> result string) (order : list nat)
    (improve_reply : result string) : result Q * fs :=
  if length eth <? CANDLE_HOURS then (Err NotEnoughEthCandles, st) else
  match prompt_txt st with
  | Datatypes.None => (Err PromptFileUnreadable, st)
  | Some base_prompt =>
      match tally (pass_query eth reply) order 0 0 [] with
      | Err e => (Err e, st)
      | Ok (correct_count, total, failures) =>
          let accuracy := accuracy_of correct_count total in
          match update_history (history_json st)
                  (mkPromptRecord base_prompt accuracy) with
          | Err e => (Err e, st)
          | Ok h =>
              let st1 := mkFs (prompt_txt st) h in
              match failures with
              | [] => (Ok accuracy, st1)
              | _ :: _ =>
                  match improve_reply with
                  | Err e => (Err e, st1)
                  | Ok improved_prompt => (Ok accuracy, mkFs (Some improved_prompt) h)
                  end
              end
          end
      end
  end.

End Pass.

End Backtest.

(* ------------------------------------------------------------------ *)
(** ** main.rs: the convergence loop *)

Module Driver.
Import Backtest.

(** [res < 0.7] on the accuracy. *)
Definition Qltb (x y : Q) : bool :=
  match Qcompare x y with Lt => true | _ => false end.

Definition THRESHOLD : Q := 7 # 10.
Definition MAX_ITERATIONS : nat := 10.

Inductive outcome : Type :=
| Finished              (* the loop condition became false *)
| Aborted (e : error)   (* a pass failed: main returns the error *)
| OutOfFuel.            (* never reached, see [main_loop_termination] *)

Section Loop.

Variable State : Type.
(** One call of [run_backtest_and_improve()] on the current files. *)
Variable pass : State -> result Q * State.

(** [while { let res = run_backtest_and_improve().await?; counter += 1;
     res < 0.7 && counter < 10 } {}], returning the outcome, the final
    state and the accuracies of the completed passes in order. *)
Fixpoint drive (fuel counter : nat) (st : State) (trace : list Q)
  : outcome * State * list Q :=
  match fuel with
  | O => (OutOfFuel, st, trace)
  | S fuel' =>
      match pass st with
      | (Err e, st') => (Aborted e, st', trace)
      | (Ok res, st') =>
          let counter := S counter in
          let trace := trace ++ [res] in
          if Qltb res THRESHOLD && (counter <? MAX_ITERATIONS)
          then drive fuel' counter st' trace
          else (Finished, st', trace)
      end
  end.

(** Every accuracy but the last in a trace is below the threshold. *)
Definition continues (trace : list Q) : Prop :=
  forall k, S k < length trace -> Qltb (nth k trace 0%Q) THRESHOLD = true.

(** [let mut counter = 0; while { ... } {}]: the loop exits after at most
    [MAX_ITERATIONS] passes, so this much fuel is enough. *)
Definition main_loop (st : State) : outcome * State * list Q :=
  drive MAX_ITERATIONS 0 st [].

End Loop.

End Driver.

(* ------------------------------------------------------------------ *)
(** ** lib.rs: Coinbase candles and their conversion *)

Module Coinbase.
Import Labeler.

(** [pub struct CoinbaseCandle(f64 time, f64 low, f64 high, f64 open,
    f64 close, f64 volume)], the row layout of the Coinbase API. *)
Record CoinbaseCandle : Type := mkCoinbaseCandle {
  cb_time : float; cb_low : float; cb_high : float;
  cb_open : float; cb_close : float; cb_volume : float
}.

(** The closure of [candles_to_array]:
    [let CoinbaseCandle(time, low, high, open, close, volume) = c;
     [time, open, high, low, close, volume]] *)
Definition candle_row (c : CoinbaseCandle) : f64x6 :=
  mk6 (cb_time c) (cb_open c) (cb_high c) (cb_low c) (cb_close c) (cb_volume c).

(** [pub fn candles_to_array(candles: Vec<CoinbaseCandle>) -> Vec<[f64; 6]>]:
    [candles.reverse()], then the row mapping. *)
Definition candles_to_array (candles : list CoinbaseCandle) : list f64x6 :=
  map candle_row (rev candles).

End Coinbase.

(* ------------------------------------------------------------------ *)
(** ** backtest.rs: the candle cache [load_or_fetch] *)

Module Cache.
Import Coinbase.

(** Errors of [load_or_fetch]. *)
Inductive fetch_error : Type :=
| NetworkError      (* get_candle_data(symbol, start, end).await? *)
| CacheUnreadable   (* fs::read_to_string(&cache_file)? *)
| CacheCorrupt.     (* "Failed to deserialize cached candle data" *)

(** The cache file [cache/{symbol}_data.json] of one symbol, observed as
    for the ledger: absent, JSON text that deserializes to [l] (what
    [serde_json::to_string(&candles)] writes), UTF-8 text that does not
    deserialize, or bytes that are not UTF-8. *)
Inductive cache_file : Type :=
| NoCache
| CacheJson (l : list CoinbaseCandle)
| CacheBadJson
| CacheBadUtf8.

(** [async fn load_or_fetch(symbol, start, end)]: [fetch start end] is
    what [get_candle_data(symbol, start, end)] returns
    ([Datatypes.None] on a network or decoding error).  Returns the result
    and the cache file afterwards. *)
Definition load_or_fetch (cache : cache_file)
    (fetch : Z -> Z -> option (list CoinbaseCandle)) (start end_ : Z)
  : (list CoinbaseCandle + fetch_error) * cache_file :=
  match cache with
  | CacheJson l => (inl l, cache)
  | CacheBadJson => (inr CacheCorrupt, cache)
  | CacheBadUtf8 => (inr CacheUnreadable, cache)
  | NoCache =>
      match fetch start end_ with
      | Datatypes.None => (inr NetworkError, cache)
      | Some candles => (inl candles, CacheJson candles)
      end
  end.

End Cache.

(* ------------------------------------------------------------------ *)
(** ** lib.rs: the reply of the OpenAI API in [analyze_data_gpt] *)

Module Api.
Import Backtest.

(** [val[key]] (serde_json's [Index] for [&str]): the field of an object,
    [Null] when it is missing or [val] is not an object. *)
Definition json_index (key : string) (v : json) : json :=
  match json_get key v with
  | Some x => x
  | Datatypes.None => JNull
  end.

(** [v.get(0)] on a [Value]: the first element of an array. *)
Definition json_get0 (v : json) : option json :=
  match v with
  | JArray (x :: _) => Some x
  | _ => Datatypes.None
  end.

Section Reply.

Variable parse_json : string -> option json.

(** The part of [analyze_data_gpt] after the request was sent:
    [if !status.is_success() { bail!(...) }], [resp.json()] and
    [val["choices"].get(0).and_then(|choice| choice["message"]["content"]
    .as_str())]; every failure is a [ModelTransport] error. *)
Definition analyze_data_gpt_reply (status_success : bool) (body : string)
  : result string :=
  if negb status_success then Err ModelTransport else
  match parse_json body with
  | Datatypes.None => Err ModelTransport
  | Some val =>
      match json_get0 (json_index "choices"%string val) with
      | Some choice =>
          match json_as_str (json_index "content"%string
                               (json_index "message"%string choice)) with
          | Some content => Ok content
          | Datatypes.None => Err ModelTransport
          end
      | Datatypes.None => Err ModelTransport
      end
  end.

End Reply.

End Api.

(* ------------------------------------------------------------------ *)
(** ** lib.rs: [run_live_analysis] *)

Module Live.
Import Labeler Backtest.

Inductive live_error : Type :=
| NotEnoughRecentData       (* "Not enough recent data to perform live analysis" *)
| LiveFailed (e : error).   (* errors shared with the backtest *)

Inductive live_result : Type :=
| LiveOk (pred : Action) (rationale : string)
| LiveErr (e : live_error).

(** [&candles[candles.len() - CANDLE_HOURS..]] *)
Definition last_window (candles : list f64x6) : list f64x6 :=
  skipn (length candles - CANDLE_HOURS) candles.

(** [format!("{}\n\n{}", base_prompt, data_section)] *)
Definition full_prompt (base_prompt data_section : string) : string :=
  String.append base_prompt
    (String (Ascii.ascii_of_nat 10) (String (Ascii.ascii_of_nat 10) data_section)).

Section Run.

Variable parse_json : string -> option json.
(** [build_data_section] of prompt_builder.rs, whose fixed-precision
    float formatting is left as a parameter. *)
Variable build_data_section : list f64x6 -> list f64x6 -> list f64x6 -> string.

(** [run_live_analysis()] after the three series were fetched and
    converted; [prompt_txt] is [prompt.txt] and [reply p] what
    [analyze_data_gpt(p, Model::O1Mini)] returns for prompt [p]. *)
Definition run_live_analysis (prompt_txt : option string)
    (eth btc sol : list f64x6) (reply : string -> result string) : live_result :=
  if (length eth <? CANDLE_HOURS) || (length btc <? CANDLE_HOURS)
     || (length sol <? CANDLE_HOURS)
  then LiveErr NotEnoughRecentData else
  match prompt_txt with
  | Datatypes.None => LiveErr (LiveFailed PromptFileUnreadable)
  | Some base_prompt =>
      let data_section :=
        build_data_section (last_window eth) (last_window btc) (last_window sol) in
      match reply (full_prompt base_prompt data_section) with
      | Err e => LiveErr (LiveFailed e)
      | Ok response =>
          let clean := clean_response response in
          match parse_json clean with
          | Datatypes.None => LiveErr (LiveFailed NotValidJson)
          | Some val =>
              match option_map json_as_str (json_get "action"%string val) with
              | Some (Some action_str) =>
                  let rationale :=
                    match option_map json_as_str (json_get "rationale"%string val) with
                    | Some (Some r) => r
                    | _ => EmptyString
                    end in
                  let pred :=
                    if String.eqb action_str "long"%string then Long
                    else if String.eqb action_str "short"%string then Short
                    else if String.eqb action_str "none"%string then None
                    else None in
                  LiveOk pred rationale
              | _ => LiveErr (LiveFailed MissingAction)
              end
          end
      end
  end.

End Run.

End Live.

(* ------------------------------------------------------------------ *)
(** ** Concrete inputs used by the examples *)

Module Examples.
Import Labeler Backtest.

(** Record number [n]: an empty prompt with score [n]. *)
Definition record_n (n : nat) : PromptRecord :=
  mkPromptRecord EmptyString (inject_Z (Z.of_nat n)).

(** A flat candle: no label fires on a series of these. *)
Definition flat : f64x6 := candle 1 1 1.

(** A parser standing for [serde_json::from_str] on the one reply used in
    these examples. *)
Definition parse_none_reply (s : string) : option json :=
  Some (JObject [("action"%string, JString "none"%string)]).

Definition fs0 : fs := mkFs (Some "p"%string) Absent.

(** A parser that rejects every text. *)
Definition parse_reject (s : string) : option json := Datatypes.None.

(** Parsers that read every reply as the action [long], or as the action
    [hold] (not one of the three) with a rationale. *)
Definition parse_long_reply (s : string) : option json :=
  Some (JObject [("action"%string, JString "long"%string)]).

Definition parse_hold_reply (s : string) : option json :=
  Some (JObject [("action"%string, JString "hold"%string);
                 ("rationale"%string, JString "r"%string)]).

(** A one-pass state machine for the loop: the counter of passes run,
    every pass scoring [1/10]. *)
Definition low_pass (n : nat) : result Q * nat := (Ok (1 # 10), S n).

(** A body of the OpenAI API reply with one choice. *)
Definition parse_api_reply (s : string) : option json :=
  Some (JObject [("choices"%string,
    JArray [JObject [("message"%string,
      JObject [("role"%string, JString "assistant"%string);
               ("content"%string, JString "ok"%string)])]])]).

End Examples.

(* ------------------------------------------------------------------ *)
(** ** Properties of the labeler *)

Module LabelerFacts.
Import Labeler.

Lemma windows2_length {A : Type} (l : list A) :
  length (windows2 l) = length l - 1.
Proof.
  induction l as [|x [|y t] IH]; simpl; auto.
  simpl in IH. rewrite IH. lia.
Qed.

Lemma windows2_nth_error {A : Type} (l : list A) (k : nat) (x y : A) :
  nth_error l k = Some x -> nth_error l (S k) = Some y ->
  nth_error (windows2 l) k = Some (x, y).
Proof.
  revert k. induction l as [|a t IH]; intros k Hx Hy.
  - destruct k; discriminate.
  - destruct t as [|b t'].
    + destruct k; simpl in Hy; [discriminate | destruct k; discriminate].
    + destruct k as [|k].
      * simpl in Hx, Hy. inversion Hx; inversion Hy; subst. reflexivity.
      * simpl. apply IH; assumption.
Qed.

Lemma label_candles_with_length (lt st : float) (data : list f64x6) :
  data <> [] -> length (label_candles_with lt st data) = length data.
Proof.
  intros Hne. unfold label_candles_with.
  rewrite length_app, length_map, windows2_length. simpl.
  destruct data; [contradiction | simpl; lia].
Qed.

(** C1 (as amended): on the spec's scenario the labeling rule gives
    [[Short; Short; None]] with the thresholds 1.003 / 0.997, while the
    program's [label_candles], with [LONG_THRESHOLD = 1.05] and
    [SHORT_THRESHOLD = 0.95], gives [[None; None; None]]. *)
Theorem scenario1_labels :
  label_candles_with LONG_THRESHOLD_03 SHORT_THRESHOLD_03 scenario1
    = [Short; Short; None]
  /\ label_candles scenario1 = [None; None; None].
Proof. split; vm_compute; reflexivity. Qed.

(** C1 (counterexample): the program's [label_candles] does not return
    [[Short; Short; None]] on the spec's scenario. *)
Lemma scenario1_not_short_short :
  label_candles scenario1 <> [Short; Short; None].
Proof. vm_compute. discriminate. Qed.

(** C2: for every adjacent pair [(current, next)] at position [k], when
    both [next.high >= current.close * LONG_THRESHOLD] and
    [next.low <= current.close * SHORT_THRESHOLD] hold, the label at [k]
    is [Short]. *)
Theorem label_candles_tie_is_short (data : list f64x6) (k : nat)
    (current next : f64x6) :
  nth_error data k = Some current ->
  nth_error data (S k) = Some next ->
  (at6 current CLOSE * LONG_THRESHOLD <=? at6 next HIGH)%float = true ->
  (at6 next LOW <=? at6 current CLOSE * SHORT_THRESHOLD)%float = true ->
  nth_error (label_candles data) k = Some Short.
Proof.
  intros Hc Hn Hlong Hshort.
  unfold label_candles, label_candles_with.
  rewrite nth_error_app1.
  - rewrite nth_error_map, (windows2_nth_error data k current next Hc Hn).
    cbn [option_map]. unfold label_pair. cbn [fst snd].
    rewrite Hlong, Hshort. reflexivity.
  - rewrite length_map, windows2_length.
    assert (S k < length data) by (apply nth_error_Some; congruence). lia.
Qed.

(** Witness of C2: a pair with [next.high = 200] and [next.low = 10]
    after a close of [100]. *)
Lemma label_candles_tie_is_short_witness :
  nth_error (label_candles [candle 100 90 100; candle 200 10 150]) 0
    = Some Short.
Proof.
  apply (label_candles_tie_is_short _ 0 (candle 100 90 100) (candle 200 10 150));
    vm_compute; reflexivity.
Defined.

(** C3: for every series of length [n >= 1], [label_candles] returns
    exactly [n] actions and the last one is [None]. *)
Theorem label_candles_length_last (data : list f64x6) :
  data <> [] ->
  length (label_candles data) = length data
  /\ nth_error (label_candles data) (length data - 1) = Some None.
Proof.
  intros Hne. unfold label_candles.
  pose proof (label_candles_with_length LONG_THRESHOLD SHORT_THRESHOLD data Hne) as Hlen.
  split; [exact Hlen|].
  unfold label_candles_with in *.
  rewrite nth_error_app2; rewrite length_map, windows2_length.
  - replace (length data - 1 - (length data - 1)) with 0 by lia. reflexivity.
  - lia.
Qed.

(** Witness of C3: the single-candle series. *)
Lemma label_candles_length_last_witness :
  length (label_candles [candle 100 99 100]) = 1
  /\ nth_error (label_candles [candle 100 99 100]) 0 = Some None.
Proof.
  apply (label_candles_length_last [candle 100 99 100]). discriminate.
Defined.

(** C10: on the empty series [label_candles] returns [[None]], of
    length 1 where the input has length 0. *)
Theorem label_candles_empty :
  label_candles [] = [None] /\ length (label_candles []) = 1.
Proof. split; reflexivity. Qed.

End LabelerFacts.

(* ------------------------------------------------------------------ *)
(** ** Properties of the history ledger *)

Module LedgerFacts.
Import Labeler Backtest Examples.

Lemma keep_last_10_lastn (h : list PromptRecord) :
  keep_last_10 h = lastn 10 h.
Proof.
  unfold keep_last_10, lastn.
  destruct (10 <? length h) eqn:E; [reflexivity|].
  apply Nat.ltb_ge in E. replace (length h - 10) with 0 by lia. reflexivity.
Qed.

Lemma lastn_app_long {A : Type} (n : nat) (p q : list A) :
  n <= length q -> lastn n (p ++ q) = lastn n q.
Proof.
  intros Hn. unfold lastn. rewrite length_app, skipn_app.
  rewrite skipn_all2 by lia. simpl.
  f_equal. lia.
Qed.

Lemma lastn_all {A : Type} (n : nat) (l : list A) :
  length l <= n -> lastn n l = l.
Proof.
  intros H. unfold lastn. replace (length l - n) with 0 by lia. reflexivity.
Qed.

Lemma lastn_length {A : Type} (n : nat) (l : list A) :
  length (lastn n l) = Nat.min n (length l).
Proof. unfold lastn. rewrite length_skipn. lia. Qed.

Lemma lastn_split {A : Type} (n : nat) (l : list A) :
  l = firstn (length l - n) l ++ lastn n l.
Proof. unfold lastn. symmetry. apply firstn_skipn. Qed.

(** Keeping the last [n] before appending does not change the last [n]
    after appending. *)
Lemma lastn_lastn_app {A : Type} (n : nat) (l m : list A) :
  lastn n (lastn n l ++ m) = lastn n (l ++ m).
Proof.
  destruct (Nat.le_gt_cases n (length (lastn n l ++ m))) as [Hle | Hgt].
  - rewrite (lastn_split n l) at 2. rewrite <- app_assoc.
    symmetry. apply lastn_app_long. exact Hle.
  - rewrite length_app, lastn_length in Hgt.
    rewrite (lastn_all n l) by lia. reflexivity.
Qed.

Lemma update_history_loaded (f : ledger_file) (l : list PromptRecord)
    (r : PromptRecord) :
  load_history f = Ok l ->
  update_history f r = Ok (LedgerJson (lastn 10 (l ++ [r]))).
Proof.
  intros H. unfold update_history. rewrite H, keep_last_10_lastn. reflexivity.
Qed.

(** From any ledger file the code can read, a run of passes leaves the
    last 10 of the loaded records followed by the appended ones. *)
Lemma ledger_after_loaded (records : list PromptRecord) :
  forall (f : ledger_file) (l : list PromptRecord),
  load_history f = Ok l -> records <> [] ->
  ledger_after f records = Ok (LedgerJson (lastn 10 (l ++ records))).
Proof.
  induction records as [|r rest IH]; intros f l Hload Hne; [contradiction|].
  simpl. rewrite (update_history_loaded f l r Hload).
  destruct rest as [|r' rest'].
  - reflexivity.
  - rewrite (IH (LedgerJson (lastn 10 (l ++ [r]))) (lastn 10 (l ++ [r])))
      by (reflexivity || discriminate).
    rewrite lastn_lastn_app, <- app_assoc. reflexivity.
Qed.

(** C4: starting without a ledger file, after the ledger updates of any
    non-empty sequence of passes the file holds the last [min 10 n] of the
    appended records, in the order they were appended: a suffix of the
    sequence of appended records, of at most 10 elements. *)
Theorem ledger_keeps_last_10 (records : list PromptRecord) :
  records <> [] ->
  ledger_after Absent records = Ok (LedgerJson (lastn 10 records))
  /\ length (lastn 10 records) = Nat.min 10 (length records)
  /\ length (lastn 10 records) <= 10
  /\ records = firstn (length records - 10) records ++ lastn 10 records.
Proof.
  intros Hne. split; [|split; [|split]].
  - apply (ledger_after_loaded records Absent []); [reflexivity | exact Hne].
  - apply lastn_length.
  - rewrite lastn_length. lia.
  - apply lastn_split.
Qed.

(** Witness of C4: twelve passes, records 0 to 11; the file keeps 2 to 11. *)
Lemma ledger_keeps_last_10_witness :
  ledger_after Absent (map record_n (seq 0 12))
    = Ok (LedgerJson (map record_n (seq 2 10)))
  /\ length (lastn 10 (map record_n (seq 0 12))) = 10.
Proof.
  destruct (ledger_keeps_last_10 (map record_n (seq 0 12)) ltac:(discriminate))
    as [H [H1 _]].
  split.
  - rewrite H. reflexivity.
  - rewrite H1. reflexivity.
Defined.

(** C9 (as amended): a ledger file holding UTF-8 text that does not
    deserialize is replaced, without error, by a ledger holding only the
    new record; a ledger file whose bytes are not UTF-8 makes the update
    fail with the read error. *)
Theorem corrupt_ledger_update (r : PromptRecord) :
  update_history BadJson r = Ok (LedgerJson [r])
  /\ update_history BadUtf8 r = Err HistoryFileUnreadable.
Proof. split; reflexivity. Qed.

End LedgerFacts.

(* ------------------------------------------------------------------ *)
(** ** Properties of one backtest pass *)

Module PassFacts.
Import Labeler Backtest Examples.

Section Tally.

Variable query : nat -> result (Action * string * Action).

(** A tally in which every task succeeds: the correct ones are those whose
    prediction is the label, and the failures are empty exactly when all
    are correct. *)
Lemma tally_all_ok (order : list nat) :
  forall c t f,
  (forall i, In i order -> exists v, query i = Ok v) ->
  exists fl,
    tally query order c t f
    = Ok (c + length (filter (fun i => match query i with
                                       | Ok (p, _, l) => Action_eqb p l
                                       | Err _ => false
                                       end) order),
          t + length order, f ++ fl)
    /\ (fl = [] <-> forallb (fun i => match query i with
                                     | Ok (p, _, l) => Action_eqb p l
                                     | Err _ => false
                                     end) order = true).
Proof.
  induction order as [|i rest IH]; intros c t f Hok.
  - exists []. rewrite app_nil_r, !Nat.add_0_r. split; [reflexivity | tauto].
  - destruct (Hok i (or_introl eq_refl)) as [[[p r] l] Hq].
    assert (Hok' : forall j, In j rest -> exists v, query j = Ok v)
      by (intros j Hj; apply Hok; right; exact Hj).
    simpl. rewrite Hq.
    destruct (Action_eqb p l) eqn:Hpl.
    + destruct (IH (S c) (S t) f Hok') as [fl [Ht Hfl]].
      exists fl. rewrite Ht. split; [|exact Hfl].
      f_equal; repeat (apply pair_equal_spec; split); try reflexivity; simpl; lia.
    + destruct (IH c (S t) (f ++ [(i, p, l, r)]) Hok') as [fl [Ht Hfl]].
      exists ((i, p, l, r) :: fl). rewrite Ht, <- app_assoc.
      split; [|split; discriminate].
      f_equal; repeat (apply pair_equal_spec; split); try reflexivity; simpl; lia.
Qed.

Lemma filter_forallb_perm (g : nat -> bool) (o1 o2 : list nat) :
  Permutation o1 o2 ->
  length (filter g o1) = length (filter g o2) /\ forallb g o1 = forallb g o2.
Proof.
  induction 1 as [|x l l' _ [IH1 IH2]|x y l|l l' l'' _ [IH1 IH2] _ [IH3 IH4]].
  - split; reflexivity.
  - simpl. rewrite IH2. destruct (g x); simpl; split; congruence.
  - simpl. destruct (g x), (g y); split; reflexivity.
  - split; congruence.
Qed.

End Tally.

Section Facts.

Variable parse_json : string -> option json.

Lemma tally_counts (query : nat -> result (Action * string * Action))
    (order : list nat) :
  forall c t f c' t' f',
  tally query order c t f = Ok (c', t', f') ->
  c + length f = t ->
  c' + length f' = t' /\ t' = t + length order.
Proof.
  induction order as [|i rest IH]; intros c t f c' t' f' H Hinv; simpl in H.
  - inversion H; subst. simpl. lia.
  - destruct (query i) as [[[pred rationale] label]|e]; [|discriminate].
    destruct (Action_eqb pred label).
    + destruct (IH _ _ _ _ _ _ H) as [H1 H2]; [lia|]. simpl. lia.
    + destruct (IH _ _ _ _ _ _ H) as [H1 H2]; [rewrite length_app; simpl; lia|].
      simpl. lia.
Qed.

Lemma tally_error (query : nat -> result (Action * string * Action))
    (order : list nat) (i : nat) (e : error) :
  In i order -> query i = Err e ->
  forall c t f, exists e', tally query order c t f = Err e'.
Proof.
  induction order as [|j rest IH]; intros Hin Hq c t f; [contradiction|].
  simpl. destruct (query j) as [[[pred rationale] label]|e'] eqn:Hj.
  - destruct Hin as [<- | Hin]; [congruence|].
    destruct (Action_eqb pred label); apply IH; assumption.
  - exists e'. reflexivity.
Qed.

Lemma accuracy_of_bounds (c t : nat) :
  c <= t -> (0 <= accuracy_of c t <= 1)%Q.
Proof.
  intros Hct. unfold accuracy_of.
  destruct (0 <? t) eqn:Ht; [|split; discriminate].
  apply Nat.ltb_lt in Ht.
  assert (Hpos : (0 < inject_Z (Z.of_nat t))%Q) by (change 0%Q with (inject_Z 0); rewrite <- Zlt_Qlt; lia).
  split.
  - apply Qle_shift_div_l; [exact Hpos|].
    rewrite Qmult_0_l. change 0%Q with (inject_Z 0). rewrite <- Zle_Qle. lia.
  - apply Qle_shift_div_r; [exact Hpos|].
    rewrite Qmult_1_l. rewrite <- Zle_Qle. lia.
Qed.

(** What a completed pass computed. *)
Lemma run_ok_inv (st : fs) (eth btc sol : list f64x6)
    (reply : nat -> result string) (order : list nat)
    (improve_reply : result string) (acc : Q) (st' : fs) :
  run_backtest_and_improve parse_json st eth btc sol reply order improve_reply
    = (Ok acc, st') ->
  exists base_prompt c t failures h,
    prompt_txt st = Some base_prompt
    /\ tally (pass_query parse_json eth reply) order 0 0 [] = Ok (c, t, failures)
    /\ acc = accuracy_of c t
    /\ update_history (history_json st) (mkPromptRecord base_prompt acc) = Ok h
    /\ history_json st' = h
    /\ (failures = [] -> prompt_txt st' = prompt_txt st).
Proof.
  unfold run_backtest_and_improve.
  destruct (length eth <? CANDLE_HOURS); [discriminate|].
  destruct (prompt_txt st) as [base_prompt|] eqn:Hp; [|discriminate].
  destruct (tally _ order 0 0 []) as [[[c t] failures]|e] eqn:Ht; [|discriminate].
  destruct (update_history _ _) as [h|e] eqn:Hh; [|discriminate].
  intros Hrun.
  destruct failures as [|x rest].
  - inversion Hrun; subst.
    exists base_prompt, c, t, [], h. repeat split; auto.
  - destruct improve_reply as [improved|e]; [|discriminate].
    inversion Hrun; subst.
    exists base_prompt, c, t, (x :: rest), h. repeat split; auto. discriminate.
Qed.

End Facts.

(** C5: in every pass that completes, the accuracy is [correct / total]
    where [total] is the number of evaluated windows and [correct] the
    number of them whose predicted action equals the label; it lies in
    [[0, 1]] and is exactly [0] when no window is evaluated. *)
Theorem pass_accuracy_bounds (parse_json : string -> option json) (st : fs)
    (eth btc sol : list f64x6) (reply : nat -> result string)
    (order : list nat) (improve_reply : result string) (acc : Q) (st' : fs) :
  Permutation order (task_indices eth btc sol) ->
  run_backtest_and_improve parse_json st eth btc sol reply order improve_reply
    = (Ok acc, st') ->
  exists correct_count total,
    correct_count
      = length (filter (fun i => match pass_query parse_json eth reply i with
                                 | Ok (pred, _, label) => Action_eqb pred label
                                 | Err _ => false
                                 end) (task_indices eth btc sol))
    /\ correct_count <= total
    /\ total = length (task_indices eth btc sol)
    /\ acc = accuracy_of correct_count total
    /\ (0 <= acc <= 1)%Q
    /\ (total = 0 -> acc = 0%Q).
Proof.
  intros Hperm Hrun.
  destruct (run_ok_inv parse_json _ _ _ _ _ _ _ _ _ Hrun)
    as (base_prompt & c & t & failures & h & _ & Ht & Hacc & _).
  destruct (tally_counts _ _ _ _ _ _ _ _ Ht eq_refl) as [Hcf Htot].
  assert (Hok : forall i, In i order -> exists v, pass_query parse_json eth reply i = Ok v).
  { intros i Hi. destruct (pass_query parse_json eth reply i) as [v|e] eqn:Hq; [eauto|].
    destruct (tally_error _ order i e Hi Hq 0 0 []) as [e' He']. congruence. }
  destruct (tally_all_ok _ order 0 0 [] Hok) as [fl [Ht' _]].
  rewrite Ht in Ht'. inversion Ht' as [[Hc Ht2 Hf]].
  destruct (filter_forallb_perm
              (fun i => match pass_query parse_json eth reply i with
                        | Ok (pred, _, label) => Action_eqb pred label
                        | Err _ => false
                        end) _ _ Hperm) as [Hlen _].
  exists c, t. subst acc.
  split; [rewrite Hc; simpl; exact Hlen|].
  split; [lia|]. split; [rewrite Htot; simpl; apply Permutation_length; exact Hperm|].
  split; [reflexivity|]. split.
  - apply accuracy_of_bounds. lia.
  - intros ->. reflexivity.
Qed.

(** Witness of C5: one window, predicted and labelled [None]. *)
Lemma pass_accuracy_bounds_witness :
  exists correct_count total,
    correct_count
      = length (filter (fun i => match pass_query parse_none_reply (repeat flat 25)
                                         (fun _ => Ok "{}"%string) i with
                                 | Ok (pred, _, label) => Action_eqb pred label
                                 | Err _ => false
                                 end)
                  (task_indices (repeat flat 25) (repeat flat 25) (repeat flat 25)))
    /\ correct_count <= total
    /\ total = length (task_indices (repeat flat 25) (repeat flat 25) (repeat flat 25))
    /\ accuracy_of 1 1 = accuracy_of correct_count total
    /\ (0 <= accuracy_of 1 1 <= 1)%Q
    /\ (total = 0 -> accuracy_of 1 1 = 0%Q).
Proof.
  apply (pass_accuracy_bounds parse_none_reply fs0
           (repeat flat 25) (repeat flat 25) (repeat flat 25)
           (fun _ => Ok "{}"%string) [24] (Ok "q"%string) (accuracy_of 1 1)
           (mkFs (Some "p"%string) (LedgerJson [mkPromptRecord "p"%string (accuracy_of 1 1)]))).
  - vm_compute. apply Permutation_refl.
  - vm_compute. reflexivity.
Defined.

(** C6: if the reply to some window is not JSON after the code fences are
    stripped, or is JSON without an [action] field, the pass fails and
    leaves both files as they were: no accuracy, no ledger entry, no new
    prompt. *)
Theorem malformed_reply_aborts_pass (parse_json : string -> option json)
    (st : fs) (eth btc sol : list f64x6) (reply : nat -> result string)
    (order : list nat) (improve_reply : result string) (i : nat) (r : string) :
  Permutation order (task_indices eth btc sol) ->
  In i (task_indices eth btc sol) ->
  reply i = Ok r ->
  (parse_json (clean_response r) = Datatypes.None
   \/ exists v, parse_json (clean_response r) = Some v
                /\ json_get "action"%string v = Datatypes.None) ->
  exists e,
    run_backtest_and_improve parse_json st eth btc sol reply order improve_reply
      = (Err e, st).
Proof.
  intros Hperm Hin Hr Hbad.
  assert (Hq : exists e, pass_query parse_json eth reply i = Err e).
  { unfold pass_query, query_model_and_compare. rewrite Hr.
    destruct Hbad as [Hnone | (v & Hv & Hget)].
    - rewrite Hnone. eexists. reflexivity.
    - rewrite Hv, Hget. eexists. reflexivity. }
  destruct Hq as [e0 Hq].
  assert (Hin' : In i order) by (apply (Permutation_in i (Permutation_sym Hperm)); exact Hin).
  destruct (tally_error _ order i e0 Hin' Hq 0 0 []) as [e Ht].
  unfold run_backtest_and_improve.
  destruct (length eth <? CANDLE_HOURS); [eexists; reflexivity|].
  destruct (prompt_txt st); [|eexists; reflexivity].
  rewrite Ht. exists e. reflexivity.
Qed.

(** Witness of C6: one window whose reply is not JSON. *)
Lemma malformed_reply_aborts_pass_witness :
  exists e,
    run_backtest_and_improve parse_reject fs0
      (repeat flat 25) (repeat flat 25) (repeat flat 25)
      (fun _ => Ok "not json"%string) [24] (Ok "q"%string) = (Err e, fs0).
Proof.
  apply (malformed_reply_aborts_pass parse_reject fs0
           (repeat flat 25) (repeat flat 25) (repeat flat 25)
           (fun _ => Ok "not json"%string) [24] (Ok "q"%string) 24 "not json"%string).
  - vm_compute. apply Permutation_refl.
  - vm_compute. left. reflexivity.
  - reflexivity.
  - left. reflexivity.
Defined.

(** C7: when the failure set of a completed pass is empty, the prompt
    file is as it was before the pass, and the pass does not depend on the
    improvement call (it is not made). *)
Theorem no_failures_prompt_untouched (parse_json : string -> option json)
    (st : fs) (eth btc sol : list f64x6) (reply : nat -> result string)
    (order : list nat) (improve_reply : result string) (c t : nat)
    (acc : Q) (st' : fs) :
  tally (pass_query parse_json eth reply) order 0 0 [] = Ok (c, t, []) ->
  run_backtest_and_improve parse_json st eth btc sol reply order improve_reply
    = (Ok acc, st') ->
  prompt_txt st' = prompt_txt st
  /\ (forall improve_reply',
        run_backtest_and_improve parse_json st eth btc sol reply order improve_reply'
          = (Ok acc, st')).
Proof.
  intros Ht Hrun. split.
  - destruct (run_ok_inv parse_json _ _ _ _ _ _ _ _ _ Hrun)
      as (base_prompt & c' & t' & failures & h & _ & Ht' & _ & _ & _ & Hkeep).
    rewrite Ht in Ht'. inversion Ht'; subst. apply Hkeep. reflexivity.
  - intros improve_reply'. rewrite <- Hrun.
    unfold run_backtest_and_improve.
    destruct (length eth <? CANDLE_HOURS); [reflexivity|].
    destruct (prompt_txt st); [|reflexivity].
    rewrite Ht. destruct (update_history _ _); reflexivity.
Qed.

(** Witness of C7: the one-window pass above, whose prediction is right. *)
Lemma no_failures_prompt_untouched_witness :
  prompt_txt (mkFs (Some "p"%string) (LedgerJson [mkPromptRecord "p"%string (accuracy_of 1 1)]))
    = prompt_txt fs0.
Proof.
  apply (no_failures_prompt_untouched parse_none_reply fs0
           (repeat flat 25) (repeat flat 25) (repeat flat 25)
           (fun _ => Ok "{}"%string) [24] (Ok "q"%string) 1 1 (accuracy_of 1 1)).
  - vm_compute. reflexivity.
  - vm_compute. reflexivity.
Defined.

(** C9 (counterexample): a pass on a ledger file whose bytes are not UTF-8
    fails with the read error instead of overwriting the ledger. *)
Lemma corrupt_utf8_ledger_fails_pass :
  run_backtest_and_improve parse_reject (mkFs (Some "p"%string) BadUtf8)
    (repeat flat 24) (repeat flat 24) (repeat flat 24)
    (fun _ => Ok "{}"%string) [] (Ok "q"%string)
  = (Err HistoryFileUnreadable, mkFs (Some "p"%string) BadUtf8).
Proof. vm_compute. reflexivity. Qed.

End PassFacts.

(* ------------------------------------------------------------------ *)
(** ** Properties of the convergence loop *)

Module DriverFacts.
Import Backtest Driver.

Section Facts.

Variable State : Type.
Variable pass : State -> result Q * State.

Lemma continues_snoc (trace : list Q) (res : Q) :
  (forall k, k < length trace -> Qltb (nth k trace 0%Q) THRESHOLD = true) ->
  continues (trace ++ [res]).
Proof.
  intros H k Hk. rewrite length_app in Hk. simpl in Hk.
  rewrite app_nth1 by lia. apply H. lia.
Qed.

Lemma drive_spec (fuel : nat) :
  forall counter st trace o st' trace',
  drive State pass fuel counter st trace = (o, st', trace') ->
  counter + fuel = MAX_ITERATIONS ->
  counter < MAX_ITERATIONS ->
  length trace = counter ->
  (forall k, k < length trace -> Qltb (nth k trace 0%Q) THRESHOLD = true) ->
  o <> OutOfFuel
  /\ length trace' <= MAX_ITERATIONS
  /\ continues trace'
  /\ (o = Finished ->
        exists earlier last, trace' = earlier ++ [last]
          /\ (Qltb last THRESHOLD = false \/ length trace' = MAX_ITERATIONS))
  /\ (forall e, o = Aborted e ->
        forall k, k < length trace' -> Qltb (nth k trace' 0%Q) THRESHOLD = true).
Proof.
  induction fuel as [|fuel IH]; intros counter st trace o st' trace' Hd Hf Hc Hlen Hall.
  - exfalso. lia.
  - simpl in Hd. destruct (pass st) as [[res|e] st1] eqn:Hp.
    + destruct (Qltb res THRESHOLD && (S counter <? MAX_ITERATIONS)) eqn:Hgo.
      * apply andb_true_iff in Hgo as [Hlt Hcnt]. apply Nat.ltb_lt in Hcnt.
        apply (IH (S counter) st1 (trace ++ [res]) o st' trace' Hd).
        -- lia.
        -- exact Hcnt.
        -- rewrite length_app, Hlen. simpl. lia.
        -- intros k Hk. rewrite length_app in Hk. simpl in Hk.
           destruct (Nat.lt_ge_cases k (length trace)) as [Hk' | Hk'].
           ++ rewrite app_nth1 by exact Hk'. apply Hall. exact Hk'.
           ++ rewrite app_nth2 by exact Hk'.
              replace (k - length trace) with 0 by lia. exact Hlt.
      * inversion Hd; subst o st' trace'.
        split; [discriminate|]. split; [rewrite length_app; simpl; lia|].
        split; [apply continues_snoc; exact Hall|].
        split; [|intros e' He'; discriminate].
        intros _. exists trace, res. split; [reflexivity|].
        apply andb_false_iff in Hgo as [Hge | Hcnt]; [left; exact Hge|].
        right. apply Nat.ltb_ge in Hcnt. rewrite length_app. simpl.
        unfold MAX_ITERATIONS in *. lia.
    + inversion Hd; subst o st' trace'.
      split; [discriminate|]. split; [lia|].
      split; [intros k Hk; apply Hall; lia|].
      split; [intros Hfin; discriminate|].
      intros _ _. exact Hall.
Qed.

End Facts.

(** C8: the loop of [main] runs at most 10 passes; every pass but the last
    had accuracy below the threshold 0.7, so no pass follows one reaching
    it; when the loop ends normally ([Finished]) the last pass reached the
    threshold or was the 10th; otherwise a pass failed ([Aborted]) after
    passes that were all below the threshold.  The fuel never runs out. *)
Theorem main_loop_termination (State : Type) (pass : State -> result Q * State)
    (st : State) :
  match main_loop State pass st with
  | (o, _, trace) =>
      o <> OutOfFuel
      /\ length trace <= MAX_ITERATIONS
      /\ continues trace
      /\ (o = Finished ->
            exists earlier last, trace = earlier ++ [last]
              /\ (Qltb last THRESHOLD = false \/ length trace = MAX_ITERATIONS))
      /\ (forall e, o = Aborted e ->
            forall k, k < length trace -> Qltb (nth k trace 0%Q) THRESHOLD = true)
  end.
Proof.
  unfold main_loop.
  destruct (drive State pass MAX_ITERATIONS 0 st []) as [[o st'] trace] eqn:Hd.
  apply (drive_spec State pass MAX_ITERATIONS 0 st [] o st' trace Hd);
    [reflexivity | unfold MAX_ITERATIONS; lia | reflexivity | intros k Hk; simpl in Hk; lia].
Qed.

End DriverFacts.

(* ------------------------------------------------------------------ *)
(** ** Further properties of the labeler and of [candles_to_array] *)

Module LabelerExtra.
Import Labeler Coinbase LabelerFacts.

Lemma label_candles_with_nth_error (lt st : float) (data : list f64x6)
    (k : nat) (current next : f64x6) :
  nth_error data k = Some current ->
  nth_error data (S k) = Some next ->
  nth_error (label_candles_with lt st data) k
    = Some (label_pair lt st (current, next)).
Proof.
  intros Hc Hn. unfold label_candles_with.
  rewrite nth_error_app1.
  - rewrite nth_error_map, (windows2_nth_error data k current next Hc Hn).
    reflexivity.
  - rewrite length_map, windows2_length.
    assert (S k < length data) by (apply nth_error_Some; congruence). lia.
Qed.

(** The label at [k] is [Long] exactly when only the long condition holds,
    [None] exactly when neither holds, and [Short] exactly when the short
    condition holds, whatever the long one. *)
Theorem label_candles_cases (data : list f64x6) (k : nat) (current next : f64x6) :
  nth_error data k = Some current ->
  nth_error data (S k) = Some next ->
  let long_cond := (at6 current CLOSE * LONG_THRESHOLD <=? at6 next HIGH)%float in
  let short_cond := (at6 next LOW <=? at6 current CLOSE * SHORT_THRESHOLD)%float in
  (nth_error (label_candles data) k = Some Long
     <-> long_cond = true /\ short_cond = false)
  /\ (nth_error (label_candles data) k = Some None
     <-> long_cond = false /\ short_cond = false)
  /\ (nth_error (label_candles data) k = Some Short <-> short_cond = true).
Proof.
  intros Hc Hn long_cond short_cond.
  unfold label_candles.
  rewrite (label_candles_with_nth_error _ _ data k current next Hc Hn).
  unfold label_pair. cbn [fst snd]. fold long_cond short_cond.
  destruct long_cond, short_cond; intuition congruence.
Qed.

Lemma label_candles_cases_witness :
  nth_error (label_candles [candle 100 99 100; candle 106 99 100]) 0 = Some Long.
Proof.
  destruct (label_candles_cases [candle 100 99 100; candle 106 99 100] 0
              (candle 100 99 100) (candle 106 99 100) eq_refl eq_refl)
    as [[_ HL] _].
  apply HL. split; vm_compute; reflexivity.
Defined.

(** Appending candles to a series changes no label but the last one of the
    original series: the label of [k] only looks at candles [k] and
    [k + 1]. *)
Theorem label_candles_append_stable (xs ys : list f64x6) (k : nat) :
  S k < length xs ->
  nth_error (label_candles (xs ++ ys)) k = nth_error (label_candles xs) k.
Proof.
  intros Hk.
  destruct (nth_error xs k) as [a|] eqn:Ha;
    [|apply nth_error_None in Ha; lia].
  destruct (nth_error xs (S k)) as [b|] eqn:Hb;
    [|apply nth_error_None in Hb; lia].
  unfold label_candles.
  rewrite (label_candles_with_nth_error _ _ xs k a b Ha Hb).
  apply label_candles_with_nth_error.
  - rewrite nth_error_app1 by lia. exact Ha.
  - rewrite nth_error_app1 by lia. exact Hb.
Qed.

Lemma label_candles_append_stable_witness :
  nth_error (label_candles ([candle 1 1 1; candle 1 1 1] ++ [candle 9 0 5]))  0
    = nth_error (label_candles [candle 1 1 1; candle 1 1 1]) 0.
Proof. apply label_candles_append_stable. simpl. lia. Defined.

Lemma leb_nan_l (x : float) : (nan <=? x)%float = false.
Proof.
  rewrite leb_spec. change (Prim2SF nan) with S754_nan. reflexivity.
Qed.

Lemma leb_nan_r (x : float) : (x <=? nan)%float = false.
Proof.
  rewrite leb_spec. change (Prim2SF nan) with S754_nan.
  unfold SFleb, SFcompare. destruct (Prim2SF x); reflexivity.
Qed.

Lemma mul_nan_l (x : float) : (nan * x)%float = nan.
Proof.
  apply Prim2SF_inj. rewrite mul_spec. change (Prim2SF nan) with S754_nan.
  reflexivity.
Qed.

(** A candle whose close is NaN gets the label [None]: both comparisons
    with a NaN product are false. *)
Theorem label_candles_nan_close (data : list f64x6) (k : nat)
    (current next : f64x6) :
  nth_error data k = Some current ->
  nth_error data (S k) = Some next ->
  at6 current CLOSE = nan ->
  nth_error (label_candles data) k = Some None.
Proof.
  intros Hc Hn Hnan. unfold label_candles.
  rewrite (label_candles_with_nth_error _ _ data k current next Hc Hn).
  unfold label_pair. cbn [fst snd]. rewrite Hnan, !mul_nan_l, leb_nan_l, leb_nan_r.
  reflexivity.
Qed.

Lemma label_candles_nan_close_witness :
  nth_error (label_candles [candle 1 1 nan; candle 200 0 1]) 0 = Some None.
Proof. apply (label_candles_nan_close _ 0 (candle 1 1 nan) (candle 200 0 1)); reflexivity. Defined.

(** [candles_to_array] keeps every candle and puts them in the reverse of
    the API's order: row [i] is candle [n - 1 - i], with Coinbase's
    [high], [low] and [close] in the slots [HIGH], [LOW] and [CLOSE] that
    the labeler reads. *)
Theorem candles_to_array_rows (cs : list CoinbaseCandle) (i : nat) :
  i < length cs ->
  length (candles_to_array cs) = length cs
  /\ exists c, nth_error cs (length cs - 1 - i) = Some c
      /\ nth_error (candles_to_array cs) i = Some (candle_row c)
      /\ at6 (candle_row c) HIGH = cb_high c
      /\ at6 (candle_row c) LOW = cb_low c
      /\ at6 (candle_row c) CLOSE = cb_close c.
Proof.
  intros Hi. unfold candles_to_array. split.
  - rewrite length_map, length_rev. reflexivity.
  - rewrite nth_error_map, nth_error_rev.
    destruct (Nat.ltb_spec i (length cs)) as [_|]; [|lia].
    destruct (nth_error cs (length cs - S i)) as [c|] eqn:Hc;
      [|apply nth_error_None in Hc; lia].
    exists c. replace (length cs - 1 - i) with (length cs - S i) by lia.
    repeat split; auto.
Qed.

Lemma candles_to_array_rows_witness :
  length (candles_to_array
            [mkCoinbaseCandle 2 10 12 11 11 5; mkCoinbaseCandle 1 9 11 10 10 5]) = 2.
Proof.
  apply (candles_to_array_rows
           [mkCoinbaseCandle 2 10 12 11 11 5; mkCoinbaseCandle 1 9 11 10 10 5] 0).
  simpl. lia.
Defined.

End LabelerExtra.

(* ------------------------------------------------------------------ *)
(** ** Stripping code fences *)

Module CleanFacts.
Import Backtest.

Lemma substring_length_le (n m : nat) (s : string) :
  String.length (substring n m s) <= String.length s - n.
Proof.
  revert n m. induction s as [|c s IH]; intros n m.
  - destruct n, m; simpl; lia.
  - destruct n as [|n].
    + destruct m as [|m]; simpl; [lia|].
      specialize (IH 0 m). simpl in IH. lia.
    + simpl. apply IH.
Qed.

(** The backquote, character 96. *)

Lemma fence_bq : fence = String bq (String bq (String bq EmptyString)).
Proof. reflexivity. Qed.

Lemma prefix_cons (a b : Ascii.ascii) (s1 s2 : string) :
  String.prefix (String a s1) (String b s2)
  = if Ascii.ascii_dec a b then String.prefix s1 s2 else false.
Proof. reflexivity. Qed.

Lemma prefix_nil (s : string) : String.prefix EmptyString s = true.
Proof. destruct s; reflexivity. Qed.

Lemma replace_go_cons (fuel : nat) (c : Ascii.ascii) (s' : string) :
  replace_go fence EmptyString (S fuel) (String c s')
  = if String.prefix fence (String c s')
    then replace_go fence EmptyString fuel
           (substring (String.length fence) (String.length (String c s')) (String c s'))
    else String c (replace_go fence EmptyString fuel s').
Proof. reflexivity. Qed.

(** Whatever [replace_go fence] outputs starts with one or two backquotes
    only if its input did. *)
Lemma replace_fence_prefix (fuel : nat) :
  forall s, String.length s <= fuel ->
  (String.prefix (String bq EmptyString) (replace_go fence EmptyString fuel s) = true ->
   String.prefix (String bq EmptyString) s = true)
  /\ (String.prefix (String bq (String bq EmptyString))
        (replace_go fence EmptyString fuel s) = true ->
      String.prefix (String bq (String bq EmptyString)) s = true).
Proof.
  induction fuel as [|f IH]; intros s Hlen.
  - destruct s; [split; discriminate | simpl in Hlen; lia].
  - destruct s as [|c s']; [split; discriminate|].
    rewrite replace_go_cons.
    destruct (String.prefix fence (String c s')) eqn:Hf.
    + (* the input starts with a fence: it starts with one and two backquotes *)
      rewrite fence_bq, prefix_cons in Hf.
      destruct (Ascii.ascii_dec bq c) as [<-|]; [|discriminate].
      destruct s' as [|c2 s'']; [discriminate|].
      rewrite prefix_cons in Hf.
      destruct (Ascii.ascii_dec bq c2) as [<-|]; [|discriminate].
      assert (Hbb : forall t : bool, (if Ascii.ascii_dec bq bq then t else false) = t)
        by (intros t; destruct (Ascii.ascii_dec bq bq); congruence).
      split; intros _; repeat rewrite prefix_cons, Hbb; apply prefix_nil.
    + simpl in Hlen.
      destruct (IH s' ltac:(lia)) as [IH1 IH2].
      split.
      * rewrite !prefix_cons, !prefix_nil. intros H. exact H.
      * rewrite !prefix_cons.
        destruct (Ascii.ascii_dec bq c); [exact IH1|discriminate].
Qed.

Lemma replace_fence_none (fuel : nat) :
  forall s, String.length s <= fuel ->
  String.index 0 fence (replace_go fence EmptyString fuel s) = Datatypes.None.
Proof.
  induction fuel as [|f IH]; intros s Hlen.
  - destruct s; [reflexivity | simpl in Hlen; lia].
  - destruct s as [|c s']; [reflexivity|].
    rewrite replace_go_cons.
    destruct (String.prefix fence (String c s')) eqn:Hf.
    + apply IH.
      pose proof (substring_length_le (String.length fence) (String.length (String c s'))
                    (String c s')) as Hsub.
      rewrite fence_bq in Hsub |- *. simpl in Hlen, Hsub |- *. lia.
    + simpl in Hlen.
      assert (Hrest := IH s' ltac:(lia)).
      change (String.index 0 fence (String c (replace_go fence EmptyString f s')))
        with (if String.prefix fence (String c (replace_go fence EmptyString f s'))
              then Some 0
              else match String.index 0 fence (replace_go fence EmptyString f s') with
                   | Some n => Some (S n)
                   | Datatypes.None => Datatypes.None
                   end).
      rewrite Hrest.
      destruct (String.prefix fence (String c (replace_go fence EmptyString f s'))) eqn:Hp;
        [|reflexivity].
      exfalso.
      rewrite fence_bq, prefix_cons in Hp, Hf.
      destruct (Ascii.ascii_dec bq c) as [<-|]; [|discriminate].
      rewrite (proj2 (replace_fence_prefix f s' ltac:(lia)) Hp) in Hf.
      discriminate.
Qed.

(** After [clean_response] the text holds no code fence: three backquotes
    never occur in it, whatever the reply (a run of backquotes loses
    groups of three from the left until at most two are left). *)
Theorem clean_response_no_fence (response : string) :
  String.index 0 fence (clean_response response) = Datatypes.None.
Proof.
  unfold clean_response, str_replace. apply replace_fence_none. lia.
Qed.

Lemma replace_go_no_bq (p' rep : string) (fuel : nat) :
  forall s, (forall n, String.get n s <> Some bq) ->
  replace_go (String bq p') rep fuel s = s.
Proof.
  induction fuel as [|f IH]; intros s Hs; [reflexivity|].
  destruct s as [|c s']; [reflexivity|].
  assert (Hc : c <> bq) by (intros ->; apply (Hs 0); reflexivity).
  cbn [replace_go]. rewrite prefix_cons.
  destruct (Ascii.ascii_dec bq c) as [E|_]; [congruence|].
  f_equal. apply IH. intros n. exact (Hs (S n)).
Qed.

(** A reply without any backquote goes through [clean_response]
    unchanged: only code fences are removed. *)
Theorem clean_response_plain (response : string) :
  (forall n, String.get n response <> Some bq) ->
  clean_response response = response.
Proof.
  intros H. unfold clean_response, str_replace, fence_json.
  rewrite (replace_go_no_bq _ EmptyString _ response H).
  unfold fence. apply (replace_go_no_bq _ EmptyString _ response H).
Qed.

Lemma clean_response_plain_witness :
  clean_response "{}"%string = "{}"%string.
Proof.
  apply clean_response_plain.
  intros [|[|n]]; cbn; unfold bq; discriminate.
Defined.

End CleanFacts.

(* ------------------------------------------------------------------ *)
(** ** Further properties of [query_model_and_compare] and of a pass *)

Module PassExtra.
Import Labeler Backtest Examples LedgerFacts PassFacts LabelerExtra.

Lemma in_task_indices (eth btc sol : list f64x6) (i : nat) :
  In i (task_indices eth btc sol)
  <-> CANDLE_HOURS <= i < length eth /\ i <= length btc /\ i <= length sol.
Proof.
  unfold task_indices. rewrite filter_In, in_seq, negb_true_iff, orb_false_iff,
    !Nat.ltb_ge.
  unfold CANDLE_HOURS. split; intros H; lia.
Qed.

(** The windows of a pass: [i] ends a window exactly when [i] is at least
    24, candle [i] of ETH exists and the 24 candles before [i] exist in
    the three series; every window is built once. *)
Theorem task_indices_spec (eth btc sol : list f64x6) :
  NoDup (task_indices eth btc sol)
  /\ forall i, In i (task_indices eth btc sol)
     <-> CANDLE_HOURS <= i < length eth /\ i <= length btc /\ i <= length sol.
Proof.
  split.
  - apply NoDup_filter, seq_NoDup.
  - apply in_task_indices.
Qed.

(** What [query_model_and_compare] can fail with: the error of the model
    call itself, or, on a reply it received, [NotValidJson] or
    [MissingAction]; on success it hands back the label it was given. *)
Theorem query_model_and_compare_outcomes (parse_json : string -> option json)
    (reply : result string) (label : Action) :
  (forall e, query_model_and_compare parse_json reply label = Err e ->
     reply = Err e
     \/ ((exists r, reply = Ok r) /\ (e = NotValidJson \/ e = MissingAction)))
  /\ (forall pred rationale label',
        query_model_and_compare parse_json reply label = Ok (pred, rationale, label') ->
        label' = label).
Proof.
  unfold query_model_and_compare.
  destruct reply as [response|e0]; [|split; [intros e H; left; congruence | discriminate]].
  destruct (parse_json (clean_response response)) as [val|];
    [|split; [intros e H; right; inversion H; eauto | discriminate]].
  destruct (option_map json_as_str (json_get "action"%string val)) as [[action_str|]|];
    split; intros; try (inversion H; subst; eauto; fail);
    right; inversion H; eauto.
Qed.

(** An [action] string other than [long], [short] and [none] is read as
    [None], not as an error. *)
Theorem query_unknown_action_none (parse_json : string -> option json)
    (response s : string) (val : json) (label : Action) :
  parse_json (clean_response response) = Some val ->
  json_get "action"%string val = Some (JString s) ->
  s <> "long"%string -> s <> "short"%string ->
  exists rationale,
    query_model_and_compare parse_json (Ok response) label = Ok (None, rationale, label).
Proof.
  intros Hp Ha Hl Hs. unfold query_model_and_compare.
  rewrite Hp, Ha. cbn [option_map json_as_str].
  apply String.eqb_neq in Hl, Hs. rewrite Hl, Hs.
  destruct (String.eqb s "none"%string); eexists; reflexivity.
Qed.

Lemma query_unknown_action_none_witness :
  exists rationale,
    query_model_and_compare parse_hold_reply (Ok "x"%string) Long = Ok (None, rationale, Long).
Proof.
  apply (query_unknown_action_none parse_hold_reply "x"%string "hold"%string
           (JObject [("action"%string, JString "hold"%string);
                     ("rationale"%string, JString "r"%string)]) Long);
    [reflexivity | reflexivity | discriminate | discriminate].
Defined.

(** The label scored against the reply for window [i] is the label of the
    last candle of the window, [i - 1], against candle [i], the first one
    after the window. *)
Theorem pass_query_label (parse_json : string -> option json)
    (eth btc sol : list f64x6) (i : nat) :
  In i (task_indices eth btc sol) ->
  exists current next,
    nth_error eth (i - 1) = Some current
    /\ nth_error eth i = Some next
    /\ forall reply,
         pass_query parse_json eth reply i
         = query_model_and_compare parse_json (reply i)
             (label_pair LONG_THRESHOLD SHORT_THRESHOLD (current, next)).
Proof.
  intros Hin. apply in_task_indices in Hin. unfold CANDLE_HOURS in Hin.
  destruct (nth_error eth (i - 1)) as [current|] eqn:Hc;
    [|apply nth_error_None in Hc; lia].
  destruct (nth_error eth i) as [next|] eqn:Hn;
    [|apply nth_error_None in Hn; lia].
  exists current, next. split; [reflexivity|]. split; [reflexivity|].
  intros reply. unfold pass_query. f_equal.
  assert (Hn' : nth_error eth (S (i - 1)) = Some next)
    by (replace (S (i - 1)) with i by lia; exact Hn).
  apply nth_error_nth.
  exact (label_candles_with_nth_error _ _ eth (i - 1) current next Hc Hn').
Qed.

Lemma pass_query_label_witness :
  exists current next,
    nth_error (repeat flat 25) 23 = Some current
    /\ nth_error (repeat flat 25) 24 = Some next
    /\ forall reply,
         pass_query parse_none_reply (repeat flat 25) reply 24
         = query_model_and_compare parse_none_reply (reply 24)
             (label_pair LONG_THRESHOLD SHORT_THRESHOLD (current, next)).
Proof.
  apply (pass_query_label parse_none_reply (repeat flat 25) (repeat flat 25)
           (repeat flat 25) 24).
  vm_compute. left. reflexivity.
Defined.

(** The order in which the concurrent tasks complete does not matter to
    the accuracy or to the ledger when all tasks succeed.  The improvement
    prompt is built from the failures in completion order, so the two
    orders may get different improvement replies: the statement lets them
    differ ([improve1], [improve2]) and says nothing about the prompt
    file. *)
Theorem run_order_independent (parse_json : string -> option json) (st : fs)
    (eth btc sol : list f64x6) (reply : nat -> result string)
    (o1 o2 : list nat) (improve1 improve2 : result string) :
  Permutation o1 o2 ->
  (forall i, In i o1 -> exists v, pass_query parse_json eth reply i = Ok v) ->
  history_json (snd (run_backtest_and_improve parse_json st eth btc sol reply o1 improve1))
  = history_json (snd (run_backtest_and_improve parse_json st eth btc sol reply o2 improve2))
  /\ forall a1 a2,
       fst (run_backtest_and_improve parse_json st eth btc sol reply o1 improve1) = Ok a1 ->
       fst (run_backtest_and_improve parse_json st eth btc sol reply o2 improve2) = Ok a2 ->
       a1 = a2.
Proof.
  intros Hperm Hok.
  assert (Hok2 : forall i, In i o2 -> exists v, pass_query parse_json eth reply i = Ok v)
    by (intros i Hi; apply Hok; apply (Permutation_in i (Permutation_sym Hperm)); exact Hi).
  destruct (tally_all_ok _ o1 0 0 [] Hok) as [fl1 [Ht1 _]].
  destruct (tally_all_ok _ o2 0 0 [] Hok2) as [fl2 [Ht2 _]].
  destruct (filter_forallb_perm
              (fun i => match pass_query parse_json eth reply i with
                        | Ok (p, _, l) => Action_eqb p l
                        | Err _ => false
                        end) o1 o2 Hperm) as [Hlen _].
  unfold run_backtest_and_improve.
  destruct (length eth <? CANDLE_HOURS); [split; [reflexivity | discriminate]|].
  destruct (prompt_txt st); [|split; [reflexivity | discriminate]].
  rewrite Ht1, Ht2, Hlen, (Permutation_length Hperm). cbn [app].
  destruct (update_history _ _); [|split; [reflexivity | discriminate]].
  destruct fl1, fl2, improve1, improve2; cbn [fst snd history_json];
    (split; [reflexivity | intros a1 a2 H1 H2; congruence]).
Qed.

Lemma run_order_independent_witness :
  history_json (snd (run_backtest_and_improve parse_long_reply fs0
    (repeat flat 26) (repeat flat 26) (repeat flat 26)
    (fun _ => Ok "{}"%string) [24; 25] (Ok "q"%string)))
  = history_json (snd (run_backtest_and_improve parse_long_reply fs0
    (repeat flat 26) (repeat flat 26) (repeat flat 26)
    (fun _ => Ok "{}"%string) [25; 24] (Err ModelTransport)))
  /\ forall a1 a2,
       fst (run_backtest_and_improve parse_long_reply fs0
         (repeat flat 26) (repeat flat 26) (repeat flat 26)
         (fun _ => Ok "{}"%string) [24; 25] (Ok "q"%string)) = Ok a1 ->
       fst (run_backtest_and_improve parse_long_reply fs0
         (repeat flat 26) (repeat flat 26) (repeat flat 26)
         (fun _ => Ok "{}"%string) [25; 24] (Err ModelTransport)) = Ok a2 ->
       a1 = a2.
Proof.
  apply run_order_independent.
  - apply perm_swap.
  - intros i _. eexists. reflexivity.
Defined.

Lemma update_history_ok_inv (f : ledger_file) (r : PromptRecord) (h : ledger_file) :
  update_history f r = Ok h ->
  exists old, load_history f = Ok old /\ h = LedgerJson (lastn 10 (old ++ [r])).
Proof.
  unfold update_history. destruct (load_history f) as [old|e]; [|discriminate].
  intros H. inversion H; subst. exists old. rewrite keep_last_10_lastn. split; reflexivity.
Qed.

(** After a completed pass the ledger file holds the last 10 of the
    records it could read, followed by the record of this pass: the prompt
    the pass ran with and its accuracy. *)
Theorem pass_ledger_effect (parse_json : string -> option json) (st : fs)
    (eth btc sol : list f64x6) (reply : nat -> result string)
    (order : list nat) (improve_reply : result string) (acc : Q) (st' : fs) :
  run_backtest_and_improve parse_json st eth btc sol reply order improve_reply
    = (Ok acc, st') ->
  exists base_prompt old,
    prompt_txt st = Some base_prompt
    /\ load_history (history_json st) = Ok old
    /\ history_json st' = LedgerJson (lastn 10 (old ++ [mkPromptRecord base_prompt acc])).
Proof.
  intros Hrun.
  destruct (run_ok_inv parse_json _ _ _ _ _ _ _ _ _ Hrun)
    as (base_prompt & c & t & failures & h & Hp & _ & _ & Hh & Hst & _).
  destruct (update_history_ok_inv _ _ _ Hh) as [old [Hold ->]].
  exists base_prompt, old. auto.
Qed.

Lemma pass_ledger_effect_witness :
  exists base_prompt old,
    prompt_txt fs0 = Some base_prompt
    /\ load_history (history_json fs0) = Ok old
    /\ LedgerJson [mkPromptRecord "p"%string (accuracy_of 1 1)]
       = LedgerJson (lastn 10 (old ++ [mkPromptRecord base_prompt (accuracy_of 1 1)])).
Proof.
  apply (pass_ledger_effect parse_none_reply fs0
           (repeat flat 25) (repeat flat 25) (repeat flat 25)
           (fun _ => Ok "{}"%string) [24] (Ok "q"%string) (accuracy_of 1 1)
           (mkFs (Some "p"%string) (LedgerJson [mkPromptRecord "p"%string (accuracy_of 1 1)]))).
  vm_compute. reflexivity.
Defined.

(** A pass with a failure always writes the ledger first.  If the
    improvement call then fails, the pass fails with its error but the
    ledger stays written and the prompt file is kept; if it succeeds, the
    prompt file becomes the model's reply, verbatim. *)
Theorem pass_with_failures (parse_json : string -> option json) (st : fs)
    (eth btc sol : list f64x6) (reply : nat -> result string)
    (order : list nat) (base_prompt : string) (old : list PromptRecord)
    (c t : nat) (x : failure) (rest : list failure) :
  CANDLE_HOURS <= length eth ->
  prompt_txt st = Some base_prompt ->
  load_history (history_json st) = Ok old ->
  tally (pass_query parse_json eth reply) order 0 0 [] = Ok (c, t, x :: rest) ->
  let ledger := LedgerJson (lastn 10 (old ++ [mkPromptRecord base_prompt (accuracy_of c t)])) in
  (forall e, run_backtest_and_improve parse_json st eth btc sol reply order (Err e)
             = (Err e, mkFs (Some base_prompt) ledger))
  /\ (forall improved, run_backtest_and_improve parse_json st eth btc sol reply order (Ok improved)
             = (Ok (accuracy_of c t), mkFs (Some improved) ledger)).
Proof.
  intros Hlen Hp Hold Ht ledger.
  assert (Hl : (length eth <? CANDLE_HOURS) = false) by (apply Nat.ltb_ge; exact Hlen).
  split; intros; unfold run_backtest_and_improve;
    rewrite Hl, Hp, Ht, (update_history_loaded _ _ _ Hold); reflexivity.
Qed.

Lemma pass_with_failures_witness :
  run_backtest_and_improve parse_long_reply fs0
    (repeat flat 25) (repeat flat 25) (repeat flat 25)
    (fun _ => Ok "{}"%string) [24] (Err ModelTransport)
  = (Err ModelTransport,
     mkFs (Some "p"%string)
       (LedgerJson (lastn 10 ([] ++ [mkPromptRecord "p"%string (accuracy_of 0 1)])))).
Proof.
  destruct (pass_with_failures parse_long_reply fs0
              (repeat flat 25) (repeat flat 25) (repeat flat 25)
              (fun _ => Ok "{}"%string) [24] "p"%string [] 0 1
              (24, Long, None, EmptyString) []
              ltac:(unfold CANDLE_HOURS; simpl; lia) eq_refl eq_refl
              ltac:(vm_compute; reflexivity)) as [HE _].
  apply HE.
Defined.



(** A pass over at least one window scores exactly 1 if and only if it
    has no failure, that is, exactly when the improvement call is
    skipped. *)
Theorem perfect_pass_iff_no_failures (parse_json : string -> option json)
    (eth : list f64x6) (reply : nat -> result string) (order : list nat)
    (c t : nat) (failures : list failure) :
  tally (pass_query parse_json eth reply) order 0 0 [] = Ok (c, t, failures) ->
  order <> [] ->
  (accuracy_of c t == 1)%Q <-> failures = [].
Proof.
  intros Ht Hne.
  destruct (tally_counts _ _ _ _ _ _ _ _ Ht eq_refl) as [Hcf Htot].
  assert (Hpos : 0 < t) by (destruct order; [contradiction | simpl in Htot; lia]).
  unfold accuracy_of. assert (Hb : (0 <? t) = true) by (apply Nat.ltb_lt; exact Hpos).
  rewrite Hb.
  assert (Hq : ~ (inject_Z (Z.of_nat t) == 0)%Q).
  { change 0%Q with (inject_Z 0). rewrite inject_Z_injective. lia. }
  split.
  - intros H.
    assert (Hct : (inject_Z (Z.of_nat c) == inject_Z (Z.of_nat t))%Q).
    { rewrite <- (Qmult_1_l (inject_Z (Z.of_nat t))), <- H.
      field. exact Hq. }
    rewrite inject_Z_injective in Hct.
    destruct failures; [reflexivity|]. simpl in Hcf. lia.
  - intros ->. simpl in Hcf. rewrite Nat.add_0_r in Hcf. subst c.
    apply Qmult_inv_r. exact Hq.
Qed.

Lemma perfect_pass_iff_no_failures_witness :
  (accuracy_of 1 1 == 1)%Q <-> @nil failure = [].
Proof.
  apply (perfect_pass_iff_no_failures parse_none_reply (repeat flat 25)
           (fun _ => Ok "{}"%string) [24] 1 1 []);
    [vm_compute; reflexivity | discriminate].
Defined.

End PassExtra.

(* ------------------------------------------------------------------ *)
(** ** Further properties of the loop of [main] *)

Module DriverExtra.
Import Backtest Driver Examples.

Section Below.

Variable State : Type.
Variable pass : State -> result Q * State.

Lemma drive_below :
  (forall s, exists r s', pass s = (Ok r, s') /\ Qltb r THRESHOLD = true) ->
  forall fuel counter st trace,
  counter < MAX_ITERATIONS -> MAX_ITERATIONS <= counter + fuel ->
  match drive State pass fuel counter st trace with
  | (o, _, tr) => o = Finished /\ length tr = length trace + (MAX_ITERATIONS - counter)
  end.
Proof.
  intros Hbelow fuel.
  induction fuel as [|f IH]; intros counter st trace Hc Hf; [lia|].
  destruct (Hbelow st) as (r & s' & Hp & Hr).
  cbn [drive]. rewrite Hp. cbv beta iota zeta. rewrite Hr. cbn [andb].
  destruct (Nat.ltb_spec (S counter) MAX_ITERATIONS) as [Hlt|Hge].
  - specialize (IH (S counter) s' (trace ++ [r]) Hlt ltac:(lia)).
    revert IH. destruct (drive State pass f (S counter) s' (trace ++ [r])) as [[o s''] tr].
    intros [Ho Hl]. split; [exact Ho|].
    rewrite Hl, length_app. cbn [length]. lia.
  - split; [reflexivity|]. rewrite length_app. cbn [length]. lia.
Qed.

End Below.

(** When every pass completes below the threshold, [main] runs exactly
    10 passes and then returns normally. *)
Theorem main_loop_always_below (State : Type) (pass : State -> result Q * State)
    (st : State) :
  (forall s, exists r s', pass s = (Ok r, s') /\ Qltb r THRESHOLD = true) ->
  match main_loop State pass st with
  | (o, _, trace) => o = Finished /\ length trace = MAX_ITERATIONS
  end.
Proof.
  intros Hbelow. unfold main_loop.
  apply (drive_below State pass Hbelow MAX_ITERATIONS 0 st []);
    unfold MAX_ITERATIONS; lia.
Qed.

Lemma main_loop_always_below_witness :
  match main_loop nat low_pass 0 with
  | (o, _, trace) => o = Finished /\ length trace = MAX_ITERATIONS
  end.
Proof.
  apply (main_loop_always_below nat low_pass 0).
  intros s. exists (1 # 10), (S s). split; reflexivity.
Defined.

(** A first pass that reaches the threshold is the only one. *)
Theorem main_loop_first_pass_reaches (State : Type)
    (pass : State -> result Q * State) (st st' : State) (r : Q) :
  pass st = (Ok r, st') ->
  Qltb r THRESHOLD = false ->
  main_loop State pass st = (Finished, st', [r]).
Proof.
  intros Hp Hr. unfold main_loop, MAX_ITERATIONS. simpl.
  rewrite Hp, Hr. reflexivity.
Qed.

Lemma main_loop_first_pass_reaches_witness :
  main_loop nat (fun n => (Ok 1%Q, S n)) 0 = (Finished, 1, [1%Q]).
Proof.
  apply main_loop_first_pass_reaches; reflexivity.
Defined.

End DriverExtra.

(* ------------------------------------------------------------------ *)
(** ** Properties of the candle cache *)

Module CacheExtra.
Import Coinbase Cache.

(** Once a symbol has been fetched, its cache answers every later call
    with the same candles, whatever the requested range, and without the
    network. *)
Theorem load_or_fetch_cached_roundtrip
    (fetch : Z -> Z -> option (list CoinbaseCandle)) (start end_ : Z)
    (candles : list CoinbaseCandle) (cache' : cache_file) :
  load_or_fetch NoCache fetch start end_ = (inl candles, cache') ->
  forall fetch' start' end',
    load_or_fetch cache' fetch' start' end' = (inl candles, cache').
Proof.
  unfold load_or_fetch. destruct (fetch start end_) as [c|]; [|discriminate].
  intros H. inversion H; subst. reflexivity.
Qed.

Lemma load_or_fetch_cached_roundtrip_witness :
  load_or_fetch (CacheJson []) (fun _ _ => Datatypes.None) 5 6
    = (inl [], CacheJson []).
Proof.
  apply (load_or_fetch_cached_roundtrip (fun _ _ => Some []) 0 1 [] (CacheJson []) eq_refl).
Defined.



End CacheExtra.

(* ------------------------------------------------------------------ *)
(** ** Properties of the reply handling of [analyze_data_gpt] *)

Module ApiExtra.
Import Backtest Api Examples.

(** [analyze_data_gpt] returns text exactly when the status is a success
    and the body's [choices] array has a first element whose
    [message.content] is a string, and that string is what it returns;
    every failure is the one transport error. *)
Theorem analyze_data_gpt_reply_spec (parse_json : string -> option json)
    (status_success : bool) (body content : string) :
  (analyze_data_gpt_reply parse_json status_success body = Ok content
   <-> status_success = true
       /\ exists val choice rest,
            parse_json body = Some val
            /\ json_index "choices"%string val = JArray (choice :: rest)
            /\ json_index "content"%string (json_index "message"%string choice)
               = JString content)
  /\ (forall e, analyze_data_gpt_reply parse_json status_success body = Err e ->
        e = ModelTransport).
Proof.
  unfold analyze_data_gpt_reply. split.
  - split.
    + destruct status_success; [|discriminate]. cbn [negb].
      destruct (parse_json body) as [val|]; [|discriminate].
      destruct (json_index "choices"%string val) as [| | | |[|choice rest]|] eqn:Hc;
        try discriminate.
      cbn [json_get0].
      destruct (json_index "content"%string (json_index "message"%string choice))
        eqn:Hm; try discriminate.
      intros H. inversion H; subst.
      split; [reflexivity|]. exists val, choice, rest. auto.
    + intros [-> (val & choice & rest & Hp & Hc & Hm)].
      cbn [negb]. rewrite Hp, Hc. cbn [json_get0]. rewrite Hm. reflexivity.
  - intros e. destruct (negb status_success); [congruence|].
    destruct (parse_json body) as [val|]; [|congruence].
    destruct (json_get0 _) as [choice|]; [|congruence].
    destruct (json_as_str _); congruence.
Qed.

End ApiExtra.

(* ------------------------------------------------------------------ *)
(** ** Properties of [run_live_analysis] *)

Module LiveExtra.
Import Labeler Backtest Coinbase Live Examples LedgerFacts.

(** The live window of a series is its last 24 rows; after
    [candles_to_array] these are the 24 most recent candles of the API's
    reply (its first 24, the API listing newest first), oldest first. *)
Theorem last_window_spec (candles : list f64x6) (cs : list CoinbaseCandle) :
  length (last_window candles) = Nat.min CANDLE_HOURS (length candles)
  /\ candles = firstn (length candles - CANDLE_HOURS) candles ++ last_window candles
  /\ last_window (candles_to_array cs) = map candle_row (rev (firstn CANDLE_HOURS cs)).
Proof.
  split; [|split].
  - apply (lastn_length CANDLE_HOURS candles).
  - apply (lastn_split CANDLE_HOURS candles).
  - unfold last_window, candles_to_array.
    rewrite length_map, length_rev, skipn_map, skipn_rev. f_equal. f_equal.
    destruct (Nat.le_ge_cases CANDLE_HOURS (length cs)).
    + f_equal. lia.
    + rewrite !firstn_all2 by lia. reflexivity.
Qed.

(** The live analysis fails when any of the three series has fewer than
    24 candles, before it reads the prompt file or calls the model. *)
Theorem live_short_series (parse_json : string -> option json)
    (build_data_section : list f64x6 -> list f64x6 -> list f64x6 -> string)
    (prompt_txt : option string) (eth btc sol : list f64x6)
    (reply : string -> result string) :
  length eth < CANDLE_HOURS \/ length btc < CANDLE_HOURS \/ length sol < CANDLE_HOURS ->
  run_live_analysis parse_json build_data_section prompt_txt eth btc sol reply
  = LiveErr NotEnoughRecentData.
Proof.
  intros H. unfold run_live_analysis.
  destruct H as [H|[H|H]]; apply Nat.ltb_lt in H; rewrite H;
    rewrite ?orb_true_r; reflexivity.
Qed.

Lemma live_short_series_witness :
  run_live_analysis parse_none_reply (fun _ _ _ => EmptyString) Datatypes.None
    (repeat flat 24) (repeat flat 23) (repeat flat 24) (fun _ => Err ModelTransport)
  = LiveErr NotEnoughRecentData.
Proof.
  apply live_short_series. right. left. unfold CANDLE_HOURS. simpl. lia.
Defined.

(** With enough data, the live analysis reads the reply exactly as the
    backtest's [query_model_and_compare] does, on the prompt built from
    the base prompt and the last 24 candles of each series: the same
    prediction and rationale, or the same error. *)
Theorem live_agrees_with_query (parse_json : string -> option json)
    (build_data_section : list f64x6 -> list f64x6 -> list f64x6 -> string)
    (base_prompt : string) (eth btc sol : list f64x6)
    (reply : string -> result string) (label : Action) :
  CANDLE_HOURS <= length eth -> CANDLE_HOURS <= length btc ->
  CANDLE_HOURS <= length sol ->
  run_live_analysis parse_json build_data_section (Some base_prompt) eth btc sol reply
  = match query_model_and_compare parse_json
            (reply (full_prompt base_prompt
                      (build_data_section (last_window eth) (last_window btc)
                         (last_window sol))))
            label with
    | Ok (pred, rationale, _) => LiveOk pred rationale
    | Err e => LiveErr (LiveFailed e)
    end.
Proof.
  intros He Hb Hs. unfold run_live_analysis, query_model_and_compare.
  apply Nat.ltb_ge in He, Hb, Hs. rewrite He, Hb, Hs. cbn [orb].
  destruct (reply _) as [response|e]; [|reflexivity].
  destruct (parse_json (clean_response response)) as [val|]; [|reflexivity].
  destruct (option_map json_as_str (json_get "action"%string val)) as [[a|]|];
    reflexivity.
Qed.

Lemma live_agrees_with_query_witness :
  run_live_analysis parse_hold_reply (fun _ _ _ => EmptyString) (Some "p"%string)
    (repeat flat 24) (repeat flat 24) (repeat flat 24) (fun _ => Ok "x"%string)
  = match query_model_and_compare parse_hold_reply
            ((fun _ => Ok "x"%string)
               (full_prompt "p"%string
                  ((fun _ _ _ => EmptyString) (last_window (repeat flat 24))
                     (last_window (repeat flat 24)) (last_window (repeat flat 24)))))
            None with
    | Ok (pred, rationale, _) => LiveOk pred rationale
    | Err e => LiveErr (LiveFailed e)
    end.
Proof.
  apply live_agrees_with_query; unfold CANDLE_HOURS; simpl; lia.
Defined.

End LiveExtra.
